(** * GitHunt-API: the root resolvers of [src/api/schema.js]

    A shallow embedding of the resolver map [rootResolvers] (queries,
    mutations, the [commentAdded] subscription filter) and of the two
    enrichment helpers [getLocation] and [getWeather].

    The resolvers talk to collaborators that live outside the file
    ([context.Entries], [context.Comments], [context.Repositories],
    [pubsub], [cacheControl]).  A resolver is therefore embedded as a
    finite tree of collaborator calls; running the tree against a handler
    threads the collaborators' state and records every call made. *)

From stdpp Require Import gmap strings list fin_maps.

Local Open Scope string_scope.
Local Open Scope Z_scope.

(** ** JavaScript values that reach the resolvers *)

(** A nullable GraphQL [Int] argument: omitted, explicit [null], or an
    integer. *)
Inductive JsVal : Type :=
| JsUndefined
| JsNull
| JsNumber (n : Z).

(** [ToNumber]; [None] stands for [NaN]. *)
Definition ToNumber (v : JsVal) : option Z :=
  match v with
  | JsUndefined => None
  | JsNull => Some 0
  | JsNumber n => Some n
  end.

(** The relational operators [a < b] and [a > b]: any comparison that
    involves [NaN] is [false]. *)
Definition js_lt (a b : JsVal) : bool :=
  match ToNumber a, ToNumber b with
  | Some x, Some y => x <? y
  | _, _ => false
  end.

Definition js_gt (a b : JsVal) : bool := js_lt b a.

Inductive JsError : Type :=
| Error (message : string)
| TypeError (message : string)
| SyntaxError (message : string).

Definition message (e : JsError) : string :=
  match e with
  | Error m | TypeError m | SyntaxError m => m
  end.

(** A settled promise (or a finished resolver): a synchronous [throw] and a
    rejected promise both surface as the error of the field. *)
Inductive Result (A : Type) : Type :=
| Resolved (a : A)
| Rejected (e : JsError).
Arguments Resolved {A} a.
Arguments Rejected {A} e.

(** ** Schema types *)

Inductive FeedType : Type := HOT | NEW | TOP.
Inductive VoteType : Type := UP | DOWN | CANCEL.

Record User : Type := { login : string }.

Record Repository : Type := { full_name : string }.

Record Entry : Type := {
  entry_repository_name : string;
  entry_posted_by : string;
  entry_created_at : Z;
  entry_score : Z
}.

Record Comment : Type := {
  comment_id : Z;
  repository_name : string;
  posted_by : string;
  content : string;
  created_at : Z
}.

(** The object published on the bus: [{ commentAdded: comment }], where
    [comment] is whatever [getCommentById] resolved to. *)
Record Payload : Type := { commentAdded : option Comment }.

Record SubscriptionArgs : Type := { repoFullName : string }.

(** The per-request context; [user] is absent when nobody is logged in. *)
Record Context : Type := { user : option User }.

Definition COMMENT_ADDED_TOPIC : string := "commentAdded".

(** ** Collaborator calls *)

Inductive Call : Type :=
| cacheControl_setCacheHint (maxAge : Z)
| Entries_getForFeed (type : FeedType) (offset limit : JsVal)
| Entries_getByRepoFullName (name : string)
| Entries_submitRepository (name login : string)
| Entries_voteForEntry (name : string) (voteValue : Z) (username : string)
| Repositories_getByFullName (name : string)
| Comments_submitComment (name username content : string)
| Comments_getCommentById (id : option Z)
| pubsub_publish (topic : string) (payload : Payload).

Definition Resp (c : Call) : Type :=
  match c with
  | cacheControl_setCacheHint _ => unit
  | Entries_getForFeed _ _ _ => list Entry
  | Entries_getByRepoFullName _ => option Entry
  | Entries_submitRepository _ _ => unit
  | Entries_voteForEntry _ _ _ => unit
  | Repositories_getByFullName _ => option Repository
  | Comments_submitComment _ _ _ => list Z
  | Comments_getCommentById _ => option Comment
  | pubsub_publish _ _ => unit
  end.

(** A resolver body: return, throw, or call a collaborator and continue
    with what it resolved to. *)
Inductive Prog (R : Type) : Type :=
| Ret (r : R)
| Throw (e : JsError)
| Do (c : Call) (k : Resp c -> Prog R).
Arguments Ret {R} r.
Arguments Throw {R} e.
Arguments Do {R} c k.

Fixpoint bind {A B : Type} (p : Prog A) (f : A -> Prog B) : Prog B :=
  match p with
  | Ret a => f a
  | Throw e => Throw e
  | Do c k => Do c (fun x => bind (k x) f)
  end.

Definition call (c : Call) : Prog (Resp c) := Do c Ret.

Declare Scope prog_scope.
Delimit Scope prog_scope with prog.
Notation "x <- p ;; q" := (bind p (fun x => q))
  (at level 100, p at next level, right associativity) : prog_scope.
Notation "p ;;; q" := (bind p (fun _ => q))
  (at level 100, right associativity) : prog_scope.

(** What the collaborators do with a call in state [S]: resolve to a
    response or reject, and move to a new state. *)
Definition Handler (S : Type) : Type :=
  forall c : Call, S -> Result (Resp c) * S.

(** The outcome of a resolver, the collaborators' final state, and the
    calls issued, in order.  A rejected call ends the chain. *)
Fixpoint run {S R : Type} (h : Handler S) (p : Prog R) (s : S)
  : Result R * S * list Call :=
  match p with
  | Ret r => (Resolved r, s, [])
  | Throw e => (Rejected e, s, [])
  | Do c k =>
      match h c s with
      | (Resolved x, s1) =>
          let '(r, s2, t) := run h (k x) s1 in (r, s2, c :: t)
      | (Rejected e, s1) => (Rejected e, s1, [c])
      end
  end.

Definition outcome {S R : Type} (x : Result R * S * list Call) : Result R :=
  x.1.1.
Definition final {S R : Type} (x : Result R * S * list Call) : S := x.1.2.
Definition calls {S R : Type} (x : Result R * S * list Call) : list Call :=
  x.2.

(** ** Resolvers: [Query] *)

Definition protectedLimit (limit : JsVal) : JsVal :=
  if js_lt limit (JsNumber 1) || js_gt limit (JsNumber 20)
  then JsNumber 20
  else limit.

Definition feed (type : FeedType) (offset limit : JsVal) (context : Context)
  : Prog (list Entry) :=
  (call (cacheControl_setCacheHint 60) ;;;
   call (Entries_getForFeed type offset (protectedLimit limit)))%prog.

Definition entry (name : string) (context : Context) : Prog (option Entry) :=
  (call (cacheControl_setCacheHint 60) ;;;
   call (Entries_getByRepoFullName name))%prog.

(** [context.user || null]: [None] is [null]. *)
Definition currentUser (context : Context) : Prog (option User) :=
  (call (cacheControl_setCacheHint 60) ;;;
   Ret (user context))%prog.

(** ** Resolvers: [Mutation] *)

Definition dquote : string := String (Ascii.ascii_of_nat 34) EmptyString.

Definition not_logged_in_repository : JsError :=
  Error "Must be logged in to submit a repository.".
Definition not_logged_in_comment : JsError :=
  Error "Must be logged in to submit a comment.".
Definition not_logged_in_vote : JsError :=
  Error "Must be logged in to vote.".
Definition repository_not_found (name : string) : JsError :=
  Error ("Couldn't find repository named " +:+ dquote +:+ name +:+ dquote).
Definition already_added : JsError :=
  Error "This repository has already been added.".

Definition submitRepository (name : string) (context : Context)
  : Prog (option Entry) :=
  match user context with
  | None => Throw not_logged_in_repository
  | Some u =>
      (res <- call (Repositories_getByFullName name) ;;
       match res with
       | None => Throw (repository_not_found name)
       | Some _ => Ret tt
       end ;;;
       res <- call (Entries_getByRepoFullName name) ;;
       match res with
       | Some _ => Throw already_added
       | None => Ret tt
       end ;;;
       call (Entries_submitRepository name (login u)) ;;;
       call (Entries_getByRepoFullName name))%prog
  end.

(** The [([id]) => ...] parameter pattern: the first element of the array,
    [undefined] when there is none. *)
Definition first_id (ids : list Z) : option Z := head ids.

Definition submitComment (name commentContent : string) (context : Context)
  : Prog (option Comment) :=
  match user context with
  | None => Throw not_logged_in_comment
  | Some u =>
      (ids <- call (Comments_submitComment name (login u) commentContent) ;;
       comment <- call (Comments_getCommentById (first_id ids)) ;;
       call (pubsub_publish COMMENT_ADDED_TOPIC
               {| commentAdded := comment |}) ;;;
       Ret comment)%prog
  end.

Definition voteValue (type : VoteType) : Z :=
  match type with
  | UP => 1
  | DOWN => -1
  | CANCEL => 0
  end.

Definition vote (name : string) (type : VoteType) (context : Context)
  : Prog (option Entry) :=
  match user context with
  | None => Throw not_logged_in_vote
  | Some u =>
      (call (Entries_voteForEntry name (voteValue type) (login u)) ;;;
       call (Entries_getByRepoFullName name))%prog
  end.

(** ** Resolvers: [Subscription] *)

(** The filter handed to [withFilter]:
    [payload.commentAdded.repository_name === args.repoFullName]. *)
Definition commentAdded_filter (payload : Payload) (args : SubscriptionArgs)
  : Result bool :=
  match commentAdded payload with
  | None =>
      Rejected (TypeError "Cannot read property 'repository_name' of undefined")
  | Some c => Resolved (String.eqb (repository_name c) (repoFullName args))
  end.

(** ** Enrichment helpers: [getLocation] and [getWeather] *)

(** A promise under construction: [None] while pending; the first call of
    [resolve] or [reject] settles it and later calls are ignored. *)
Definition Promise (A : Type) : Type := option (Result A).

Definition resolve {A : Type} (a : A) (p : Promise A) : Promise A :=
  match p with
  | None => Some (Resolved a)
  | Some _ => p
  end.

Definition reject {A : Type} (e : JsError) (p : Promise A) : Promise A :=
  match p with
  | None => Some (Rejected e)
  | Some _ => p
  end.

(** How a callback body finishes: it runs to its end, or an exception
    leaves it and reaches whoever invoked the callback. *)
Inductive Completion : Type :=
| Normal
| Abrupt (e : JsError).

Definition mapLinkBase : string := "https://www.google.com/maps/?q=".

Section Enrichment.

(** Floating-point numbers only travel through these functions; their
    type and their rendering in a template literal stay abstract. *)
Variable Float : Type.
Variable Float_toString : Float -> string.

Record GeocoderEntry : Type := {
  city : string;
  country : string;
  latitude : Float;
  longitude : Float
}.

Record Location : Type := {
  location_city : string;
  location_country : string;
  location_coords : list Float;
  mapLink : string
}.

Record Currently : Type := { summary : string; temperature : Float }.

(** The parsed Dark Sky body, as far as the code looks into it. *)
Record Forecast : Type := { currently : option Currently }.

Record Weather : Type := {
  weather_summary : string;
  weather_temperature : Float;
  weather_coords : list Float
}.

(** [JSON.parse] on a string; [Resolved None] is a parsed [null]. *)
Variable JSON_parse : string -> Result (option Forecast).

(** The callback given to [geocoder.geocode], run on a pending or settled
    promise.  [err] and [res] are what the geocoder hands over; either may
    be [undefined]. *)
Definition getLocation_callback
  (err : option JsError) (res : option (list GeocoderEntry))
  (p : Promise Location) : Promise Location * Completion :=
  let p1 := match err with
            | Some e => reject e p
            | None => p
            end in
  match res with
  | None =>
      (p1, Abrupt (TypeError "Cannot read property '0' of undefined"))
  | Some [] =>
      (p1, Abrupt (TypeError "Cannot destructure property 'city' of undefined"))
  | Some (r0 :: _) =>
      let lat := latitude r0 in
      let lng := longitude r0 in
      (resolve {| location_city := city r0;
                  location_country := country r0;
                  location_coords := [lat; lng];
                  mapLink := mapLinkBase +:+ Float_toString lat +:+ ","
                               +:+ Float_toString lng |} p1,
       Normal)
  end.

(** [getLocation(place)]: the promise once the geocoder has invoked the
    callback, and how that invocation ended. *)
Definition getLocation
  (geocode : string -> option JsError * option (list GeocoderEntry))
  (place : string) : Promise Location * Completion :=
  getLocation_callback (geocode place).1 (geocode place).2 None.

(** The callback given to [request]; [body] is [undefined] when there is
    no response. *)
Definition getWeather_callback (coords : list Float)
  (error : option JsError) (body : option string)
  (p : Promise Weather) : Promise Weather * Completion :=
  let p1 := match error with
            | Some e => reject e p
            | None => p
            end in
  match body with
  | None =>
      (p1, Abrupt (SyntaxError "Unexpected token u in JSON at position 0"))
  | Some b =>
      match JSON_parse b with
      | Rejected e => (p1, Abrupt e)
      | Resolved None =>
          (p1, Abrupt (TypeError "Cannot read property 'currently' of null"))
      | Resolved (Some data) =>
          match currently data with
          | None =>
              (p1, Abrupt (TypeError
                 "Cannot destructure property 'summary' of undefined"))
          | Some c =>
              (resolve {| weather_summary := summary c;
                          weather_temperature := temperature c;
                          weather_coords := coords |} p1,
               Normal)
          end
      end
  end.

Definition getWeather
  (request : list Float -> option JsError * option string)
  (coords : list Float) : Promise Weather * Completion :=
  getWeather_callback coords (request coords).1 (request coords).2 None.

End Enrichment.

Arguments city {Float} _.
Arguments country {Float} _.
Arguments latitude {Float} _.
Arguments longitude {Float} _.
Arguments summary {Float} _.
Arguments temperature {Float} _.
Arguments currently {Float} _.
Arguments getLocation_callback {Float} _ _ _ _.
Arguments getLocation {Float} _ _ _.
Arguments getWeather_callback {Float} _ _ _ _ _.
Arguments getWeather {Float} _ _ _.

(** ** The event bus behind [pubsub] and [withFilter] *)

(** Modelled from the spec: the EventBus of section 4.1 ([./subscriptions]
    and the [withFilter] wrapper are not part of the source at hand).  A
    subscriber is a topic, the arguments of its subscription, the filter
    stored with it, and the sequence of events delivered so far. *)
Record Subscriber : Type := {
  sub_topic : string;
  sub_args : SubscriptionArgs;
  sub_filter : Payload -> SubscriptionArgs -> Result bool;
  delivered : list Payload
}.

(** Modelled from the spec: [withFilter] over [pubsub.asyncIterator topic];
    a new subscriber starts with nothing delivered (no backlog replay). *)
Definition withFilter (topic : string)
  (filterFn : Payload -> SubscriptionArgs -> Result bool)
  (args : SubscriptionArgs) : Subscriber :=
  {| sub_topic := topic; sub_args := args; sub_filter := filterFn;
     delivered := [] |}.

(** [Subscription.commentAdded.subscribe], from the source. *)
Definition commentAdded_subscribe (args : SubscriptionArgs) : Subscriber :=
  withFilter COMMENT_ADDED_TOPIC commentAdded_filter args.

(** Modelled from the spec: an event reaches a subscriber of its topic
    exactly when the subscriber's filter evaluates to [true] on it. *)
Definition deliver (topic : string) (payload : Payload) (sub : Subscriber)
  : Subscriber :=
  if String.eqb (sub_topic sub) topic then
    match sub_filter sub payload (sub_args sub) with
    | Resolved true =>
        {| sub_topic := sub_topic sub; sub_args := sub_args sub;
           sub_filter := sub_filter sub;
           delivered := delivered sub ++ [payload] |}
    | _ => sub
    end
  else sub.

(** Modelled from the spec: [publish(topic, event)] over every registered
    subscriber. *)
Definition publish (topic : string) (payload : Payload)
  (bus : list Subscriber) : list Subscriber :=
  deliver topic payload <$> bus.

(** ** The collaborators as an in-memory world *)

(** Modelled from the spec: the PersistentStore, RepositoryDirectory and
    VoteLedger of sections 3, 4.3 and 6 ([./sql/schema], [./github/schema]
    and the models behind [context] are not part of the source at hand). *)
Record EntryRow : Type := { row_posted_by : string; row_created_at : Z }.

(** Modelled from the spec: the state behind the collaborators.  The
    directory of known repositories, the entries by repository full name,
    one vote record per (entry, voter) pair, the comments by their assigned
    sequence id, the live subscribers, and the cache hints given out. *)
Record World : Type := {
  directory : gset string;
  entries : gmap string EntryRow;
  votes : gmap (string * string) Z;
  comments : gmap Z Comment;
  next_comment_id : Z;
  clock : Z;
  bus : list Subscriber;
  hints : list Z
}.

(** Modelled from the spec: the contribution of one vote record to the
    score of the entry [name]. *)
Definition add_vote (name : string) (k : string * string) (v acc : Z) : Z :=
  if decide (k.1 = name) then v + acc else acc.

(** Modelled from the spec: [currentScore(entryKey)], the sum over all vote
    records of the entry. *)
Definition currentScore (vs : gmap (string * string) Z) (name : string) : Z :=
  map_fold (add_vote name) 0 vs.

(** Modelled from the spec: [castVote] upserts the (entry, voter) record. *)
Definition castVote (name voter : string) (v : Z)
  (vs : gmap (string * string) Z) : gmap (string * string) Z :=
  <[(name, voter) := v]> vs.

(** Modelled from the spec: [getEntryByRepoFullName], with the score
    derived from the vote records at read time. *)
Definition getEntryByRepoFullName (w : World) (name : string) : option Entry :=
  match entries w !! name with
  | None => None
  | Some r =>
      Some {| entry_repository_name := name;
              entry_posted_by := row_posted_by r;
              entry_created_at := row_created_at r;
              entry_score := currentScore (votes w) name |}
  end.

(** Modelled from the spec: the error kinds of section 7 that the store
    raises, and the vote values of section 4.3, one of +1, -1, 0. *)
Definition unknown_entry : JsError := Error "UnknownEntry".
Definition invalid_vote : JsError := Error "InvalidVoteValue".
Definition duplicate_key : JsError := Error "DuplicateKey".

Definition valid_vote (v : Z) : bool :=
  (v =? 1) || (v =? -1) || (v =? 0).

Section WorldHandler.

(** The ranking behind [getEntriesForFeed] is left open. *)
Variable getEntriesForFeed : FeedType -> JsVal -> JsVal -> World -> list Entry.

(** Modelled from the spec: what each collaborator call does to the world. *)
Definition world_handler : Handler World := fun c w =>
  match c as c0 return Result (Resp c0) * World with
  | cacheControl_setCacheHint maxAge =>
      (Resolved tt,
       {| directory := directory w; entries := entries w; votes := votes w;
          comments := comments w; next_comment_id := next_comment_id w;
          clock := clock w; bus := bus w; hints := maxAge :: hints w |})
  | Entries_getForFeed ty off lim =>
      (Resolved (getEntriesForFeed ty off lim w), w)
  | Entries_getByRepoFullName name =>
      (Resolved (getEntryByRepoFullName w name), w)
  | Entries_submitRepository name submitter =>
      match entries w !! name with
      | Some _ => (Rejected duplicate_key, w)
      | None =>
          (Resolved tt,
           {| directory := directory w;
              entries := <[name := {| row_posted_by := submitter;
                                      row_created_at := clock w |}]> (entries w);
              votes := votes w; comments := comments w;
              next_comment_id := next_comment_id w;
              clock := clock w + 1; bus := bus w; hints := hints w |})
      end
  | Entries_voteForEntry name v voter =>
      if negb (valid_vote v) then (Rejected invalid_vote, w)
      else
        match entries w !! name with
        | None => (Rejected unknown_entry, w)
        | Some _ =>
            (Resolved tt,
             {| directory := directory w; entries := entries w;
                votes := castVote name voter v (votes w);
                comments := comments w;
                next_comment_id := next_comment_id w;
                clock := clock w; bus := bus w; hints := hints w |})
        end
  | Repositories_getByFullName name =>
      (Resolved (if decide (name ∈ directory w)
                 then Some {| full_name := name |} else None), w)
  | Comments_submitComment name author text =>
      match entries w !! name with
      | None => (Rejected unknown_entry, w)
      | Some _ =>
          let id := next_comment_id w in
          (Resolved [id],
           {| directory := directory w; entries := entries w;
              votes := votes w;
              comments := <[id := {| comment_id := id;
                                     repository_name := name;
                                     posted_by := author;
                                     content := text;
                                     created_at := clock w |}]> (comments w);
              next_comment_id := id + 1;
              clock := clock w + 1; bus := bus w; hints := hints w |})
      end
  | Comments_getCommentById id =>
      (Resolved (id ≫= (comments w !!.)), w)
  | pubsub_publish topic payload =>
      (Resolved tt,
       {| directory := directory w; entries := entries w; votes := votes w;
          comments := comments w; next_comment_id := next_comment_id w;
          clock := clock w; bus := publish topic payload (bus w);
          hints := hints w |})
  end.

End WorldHandler.

(** A world to run examples in: two repositories known to the directory,
    one of them already submitted, one vote on it, nobody subscribed. *)
Definition no_feed : FeedType -> JsVal -> JsVal -> World -> list Entry :=
  fun _ _ _ _ => [].

Definition world0 : World :=
  {| directory := {["A/A"; "B/B"]};
     entries := {["A/A" := {| row_posted_by := "ann"; row_created_at := 1 |}]};
     votes := {[("A/A", "bob") := 1]};
     comments := ∅;
     next_comment_id := 1;
     clock := 2;
     bus := [];
     hints := [] |}.

Definition ann : Context := {| user := Some {| login := "ann" |} |}.
Definition anonymous : Context := {| user := None |}.

(** A request sequence: the same caller votes on the same entry several
    times, one mutation after the other. *)
Definition vote_all {S : Type} (h : Handler S) (name : string)
  (context : Context) (types : list VoteType) (s : S) : S :=
  foldl (fun s1 ty => final (run h (vote name ty context) s1)) s types.

(** ** Reading a run, and worlds for the failing paths *)

(** The maximum ages hinted, and the events published, during a run. *)
Definition hinted (t : list Call) : list Z :=
  omap (fun c => match c with
                 | cacheControl_setCacheHint a => Some a
                 | _ => None
                 end) t.

Definition publications (t : list Call) : list (string * Payload) :=
  omap (fun c => match c with
                 | pubsub_publish topic p => Some (topic, p)
                 | _ => None
                 end) t.

(** The calls that write to the store. *)
Definition is_write (c : Call) : bool :=
  match c with
  | Entries_submitRepository _ _
  | Entries_voteForEntry _ _ _
  | Comments_submitComment _ _ _ => true
  | _ => false
  end.

(** The spec's [NotAuthenticated]: an error whose message starts with
    "Must be logged in". *)
Definition is_not_authenticated (e : JsError) : bool :=
  String.prefix "Must be logged in" (message e).

(** Handlers to exercise the failing paths: a world whose collaborators
    are all unreachable, and a world in which the calls picked out by [bad]
    are rejected. *)
Definition offline : Handler World :=
  fun c w => (Rejected (Error "service unavailable"), w).

Definition rejecting (bad : Call -> bool) (h : Handler World) : Handler World :=
  fun c w => if bad c then (Rejected (Error "unavailable"), w) else h c w.

Definition read_only : Handler World -> Handler World := rejecting is_write.

Definition is_fetch (c : Call) : bool :=
  match c with Comments_getCommentById _ => true | _ => false end.

Definition is_publish (c : Call) : bool :=
  match c with pubsub_publish _ _ => true | _ => false end.

Definition comment_on (name : string) : Comment :=
  {| comment_id := 7; repository_name := name; posted_by := "bob";
     content := "looks good"; created_at := 3 |}.

Definition set_votes (vs : gmap (string * string) Z) (w : World) : World :=
  {| directory := directory w; entries := entries w; votes := vs;
     comments := comments w; next_comment_id := next_comment_id w;
     clock := clock w; bus := bus w; hints := hints w |}.

(** ** The [Location.weather] resolver and the Dark Sky request *)

Definition baseUrl : string := "https://api.darksky.net/forecast/".
Definition urlParams : string :=
  "?units=us&exclude=minutely,hourly,daily,flags".

(** A value inside a template literal; a missing one prints as
    "undefined". *)
Definition in_template {A : Type} (show : A -> string) (v : option A)
  : string :=
  match v with
  | Some a => show a
  | None => "undefined"
  end.

Section WeatherOfLocation.

Variable Float : Type.
Variable Float_toString : Float -> string.
Variable JSON_parse : string -> Result (option (Forecast Float)).

(** [process.env.DARK_SKY_SECRET], absent when the variable is not set. *)
Variable darkSkySecret : option string.

(** What [request] reports to its callback for a URL. *)
Variable http : string -> option JsError * option string.

(** The URL of [getWeather]:
    [`${baseUrl}${darkSkySecret}/${coords[0]},${coords[1]}${urlParams}`]. *)
Definition weather_url (coords : list Float) : string :=
  baseUrl +:+ in_template id darkSkySecret +:+ "/"
    +:+ in_template Float_toString (coords !! 0%nat) +:+ ","
    +:+ in_template Float_toString (coords !! 1%nat) +:+ urlParams.

(** [Location.weather(root)]: [getWeather(root.coords)], with the request
    going to [weather_url]. *)
Definition Location_weather (root : Location Float)
  : Promise (Weather Float) * Completion :=
  getWeather JSON_parse (fun coords => http (weather_url coords))
    (location_coords Float root).

End WeatherOfLocation.

Arguments weather_url {Float} _ _ _.
Arguments Location_weather {Float} _ _ _ _ _.

(** A geocoder hit, a rendering of its coordinates and a forecast, to run
    the enrichment helpers on. *)
Definition oslo : GeocoderEntry Z :=
  {| city := "Oslo"; country := "Norway"; latitude := 59; longitude := 10 |}.

Definition show_degrees (z : Z) : string :=
  if z =? 59 then "59.9" else "10.7".

Definition clear_sky : Forecast Z :=
  {| currently := Some {| summary := "Clear"; temperature := 41 |} |}.

(** ** Which collaborators a resolver may reach *)

Definition is_hint (c : Call) : bool :=
  match c with cacheControl_setCacheHint _ => true | _ => false end.

(** The calls [submitComment name text] may issue for the caller [who]. *)
Definition submitComment_call (name who text : string) (c : Call) : Prop :=
  match c with
  | Comments_submitComment n l t => n = name /\ l = who /\ t = text
  | Comments_getCommentById _ => True
  | pubsub_publish topic _ => topic = COMMENT_ADDED_TOPIC
  | _ => False
  end.

(** A store that creates comments without reporting an id. *)
Definition no_ids (h : Handler World) : Handler World := fun c w =>
  match c as c0 return Result (Resp c0) * World with
  | Comments_submitComment _ _ _ => (Resolved [], w)
  | c0 => h c0 w
  end.

(** A store whose [getCommentById] answers with a comment of another
    repository. *)
Definition crossed_wires (other : Comment) (h : Handler World)
  : Handler World := fun c w =>
  match c as c0 return Result (Resp c0) * World with
  | Comments_getCommentById _ => (Resolved (Some other), w)
  | c0 => h c0 w
  end.

(** * Properties *)

(** ** Running a resolver body *)

Section RunLemmas.

Context {S : Type} (h : Handler S).

Lemma run_Do_resolved {R : Type} (c : Call) (k : Resp c -> Prog R)
  (s s1 : S) (x : Resp c) :
  h c s = (Resolved x, s1) ->
  run h (Do c k) s =
    (outcome (run h (k x) s1), final (run h (k x) s1),
     c :: calls (run h (k x) s1)).
Proof.
  intros Hc. cbn [run]. rewrite Hc.
  destruct (run h (k x) s1) as [[r s2] t]. reflexivity.
Qed.

Lemma run_Do_rejected {R : Type} (c : Call) (k : Resp c -> Prog R)
  (s s1 : S) (e : JsError) :
  h c s = (Rejected e, s1) ->
  run h (Do c k) s = (Rejected e, s1, [c]).
Proof. intros Hc. cbn [run]. rewrite Hc. reflexivity. Qed.

Lemma run_call (c : Call) (s : S) :
  run h (call c) s = ((h c s).1, (h c s).2, [c]).
Proof.
  unfold call. cbn [run]. destruct (h c s) as [[x|e] s1]; reflexivity.
Qed.

(** The first call of a body is issued whatever the collaborators do. *)
Lemma calls_Do {R : Type} (c : Call) (k : Resp c -> Prog R) (s : S) :
  exists t, calls (run h (Do c k) s) = c :: t.
Proof.
  cbn [run]. destruct (h c s) as [[x|e] s1].
  - destruct (run h (k x) s1) as [[r s2] t]. exists t. reflexivity.
  - exists []. reflexivity.
Qed.

End RunLemmas.

(** Solves a goal [run h p s = ...] from hypotheses that say what the
    handler answers to each call of [p], in order. *)
Ltac run_with_answers :=
  repeat match goal with
    | H : ?h ?c ?s = (Resolved _, _) |- context [run ?h (Do ?c _) ?s] =>
        rewrite (run_Do_resolved h c _ s _ _ H); cbn [bind]
    | H : ?h ?c ?s = (Rejected _, _) |- context [run ?h (Do ?c _) ?s] =>
        rewrite (run_Do_rejected h c _ s _ _ H)
    end;
  cbn [run outcome final calls fst snd].

(** ** The limit of [feed] *)

Lemma protectedLimit_number (n : Z) :
  protectedLimit (JsNumber n) =
    JsNumber (if decide (1 <= n <= 20) then n else 20).
Proof.
  unfold protectedLimit, js_gt, js_lt. cbn [ToNumber].
  case_decide as Hn.
  - replace (n <? 1) with false by lia.
    replace (20 <? n) with false by lia. reflexivity.
  - destruct (Z.ltb_spec n 1) as [?|?]; [reflexivity|].
    replace (20 <? n) with true by lia. reflexivity.
Qed.

Lemma protectedLimit_null : protectedLimit JsNull = JsNumber 20.
Proof. reflexivity. Qed.

(** An integer or [null] limit always reaches the store as an integer of
    the closed range 1..20. *)
Lemma protectedLimit_supplied_in_range (limit : JsVal) :
  limit <> JsUndefined ->
  exists n, protectedLimit limit = JsNumber n /\ 1 <= n <= 20.
Proof.
  destruct limit as [| |n]; intros Hl; [congruence| |].
  - exists 20. split; [reflexivity|lia].
  - rewrite protectedLimit_number. case_decide; eexists; split; eauto; lia.
Qed.

(** C1: the limit handed to the entry store is meant to lie in 1..20 for
    every call of [feed]; a call that omits [limit] hands over [undefined],
    which is no number of that range.  Integer and [null] limits are
    clamped as described ([protectedLimit_supplied_in_range]). *)
Theorem feed_limit_omitted_escapes_clamp :
  calls (run (world_handler no_feed)
           (feed HOT JsUndefined JsUndefined anonymous) world0)
  = [cacheControl_setCacheHint 60;
     Entries_getForFeed HOT JsUndefined JsUndefined]
  /\ ~ (exists n, protectedLimit JsUndefined = JsNumber n /\ 1 <= n <= 20).
Proof.
  split; [reflexivity|].
  intros (n & Hn & _). discriminate Hn.
Qed.

(** C10: with [limit] omitted neither [limit < 1] nor [limit > 20] holds,
    and the store is asked with [undefined] as its limit, not with 20. *)
Theorem feed_limit_omitted_forwarded {S : Type} (h : Handler S) (s s1 : S)
  (type : FeedType) (offset : JsVal) (context : Context) :
  h (cacheControl_setCacheHint 60) s = (Resolved tt, s1) ->
  js_lt JsUndefined (JsNumber 1) = false
  /\ js_gt JsUndefined (JsNumber 20) = false
  /\ calls (run h (feed type offset JsUndefined context) s)
     = [cacheControl_setCacheHint 60;
        Entries_getForFeed type offset JsUndefined].
Proof.
  intros Hh. split; [reflexivity|]. split; [reflexivity|].
  unfold feed, call. cbn [bind]. run_with_answers.
  change (protectedLimit JsUndefined) with JsUndefined.
  destruct (h (Entries_getForFeed type offset JsUndefined) s1) as [[x|e] s2];
    reflexivity.
Qed.

Lemma feed_limit_omitted_forwarded_witness :
  calls (run (world_handler no_feed)
           (feed NEW (JsNumber 0) JsUndefined ann) world0)
  = [cacheControl_setCacheHint 60;
     Entries_getForFeed NEW (JsNumber 0) JsUndefined].
Proof.
  refine (proj2 (proj2 (feed_limit_omitted_forwarded
                          (world_handler no_feed) world0 _
                          NEW (JsNumber 0) ann _))).
  reflexivity.
Defined.

(** ** Mutations without a logged-in user *)

(** C2: without an authenticated user each of the three mutations ends at
    once with its "Must be logged in" error; no collaborator is called and
    the collaborators' state is the one the mutation started in. *)
Theorem mutations_require_login {S : Type} (h : Handler S) (s : S)
  (name text : string) (type : VoteType) :
  run h (submitRepository name {| user := None |}) s
  = (Rejected not_logged_in_repository, s, [])
  /\ run h (vote name type {| user := None |}) s
     = (Rejected not_logged_in_vote, s, [])
  /\ run h (submitComment name text {| user := None |}) s
     = (Rejected not_logged_in_comment, s, [])
  /\ is_not_authenticated not_logged_in_repository = true
  /\ is_not_authenticated not_logged_in_vote = true
  /\ is_not_authenticated not_logged_in_comment = true.
Proof. repeat split; reflexivity. Qed.

(** ** [submitRepository] *)

Lemma world_reads_keep_world feedimpl (w : World) (name : string) :
  world_handler feedimpl (Repositories_getByFullName name) w
  = (Resolved (if decide (name ∈ directory w)
               then Some {| full_name := name |} else None), w)
  /\ world_handler feedimpl (Entries_getByRepoFullName name) w
     = (Resolved (getEntryByRepoFullName w name), w).
Proof. split; reflexivity. Qed.

(** C3: the steps of [submitRepository] in their order.  Without a user
    nothing is called; when the directory does not know the repository the
    mutation ends after that one lookup; when the store already has an
    entry it ends after the two lookups with "already been added", so that
    no write to the store is ever issued; otherwise the entry is created
    for the caller and the mutation resolves to what the store returns when
    the entry is read again.  In the in-memory world a repository that has
    an entry is rejected for every caller and the world stays as it was. *)
Theorem submitRepository_steps {S : Type} (h : Handler S) (s : S)
  (name : string) (u : User) :
  run h (submitRepository name {| user := None |}) s
  = (Rejected not_logged_in_repository, s, [])
  /\ (forall e s1,
        h (Repositories_getByFullName name) s = (Rejected e, s1) ->
        run h (submitRepository name {| user := Some u |}) s
        = (Rejected e, s1, [Repositories_getByFullName name]))
  /\ (forall s1,
        h (Repositories_getByFullName name) s = (Resolved None, s1) ->
        run h (submitRepository name {| user := Some u |}) s
        = (Rejected (repository_not_found name), s1,
           [Repositories_getByFullName name]))
  /\ (forall r s1 e s2,
        h (Repositories_getByFullName name) s = (Resolved (Some r), s1) ->
        h (Entries_getByRepoFullName name) s1 = (Resolved (Some e), s2) ->
        run h (submitRepository name {| user := Some u |}) s
        = (Rejected already_added, s2,
           [Repositories_getByFullName name; Entries_getByRepoFullName name]))
  /\ (forall r s1 s2 e s3,
        h (Repositories_getByFullName name) s = (Resolved (Some r), s1) ->
        h (Entries_getByRepoFullName name) s1 = (Resolved None, s2) ->
        h (Entries_submitRepository name (login u)) s2 = (Rejected e, s3) ->
        run h (submitRepository name {| user := Some u |}) s
        = (Rejected e, s3,
           [Repositories_getByFullName name; Entries_getByRepoFullName name;
            Entries_submitRepository name (login u)]))
  /\ (forall r s1 s2 s3 res s4,
        h (Repositories_getByFullName name) s = (Resolved (Some r), s1) ->
        h (Entries_getByRepoFullName name) s1 = (Resolved None, s2) ->
        h (Entries_submitRepository name (login u)) s2 = (Resolved tt, s3) ->
        h (Entries_getByRepoFullName name) s3 = (res, s4) ->
        run h (submitRepository name {| user := Some u |}) s
        = (res, s4,
           [Repositories_getByFullName name; Entries_getByRepoFullName name;
            Entries_submitRepository name (login u);
            Entries_getByRepoFullName name]))
  /\ (forall feedimpl (w : World) (context : Context),
        is_Some (entries w !! name) ->
        let r := run (world_handler feedimpl)
                   (submitRepository name context) w in
        final r = w
        /\ Forall (fun c => is_write c = false) (calls r)
        /\ (exists e, outcome r = Rejected e)
        /\ (is_Some (user context) -> name ∈ directory w ->
            outcome r = Rejected already_added)).
Proof.
  split; [reflexivity|].
  split.
  { intros e s1 H1. unfold submitRepository, call. cbn [user bind].
    run_with_answers. reflexivity. }
  split.
  { intros s1 H1. unfold submitRepository, call. cbn [user bind].
    run_with_answers. reflexivity. }
  split.
  { intros r s1 e s2 H1 H2. unfold submitRepository, call. cbn [user bind].
    run_with_answers. reflexivity. }
  split.
  { intros r s1 s2 e s3 H1 H2 H3. unfold submitRepository, call.
    cbn [user bind]. run_with_answers. reflexivity. }
  split.
  { intros r s1 s2 s3 res s4 H1 H2 H3 H4. unfold submitRepository, call.
    cbn [user bind]. run_with_answers.
    rewrite H4. destruct res; reflexivity. }
  intros feedimpl w [[v|]] [row Hrow]; cbn zeta.
  - destruct (world_reads_keep_world feedimpl w name) as [Hd He].
    unfold getEntryByRepoFullName in He. rewrite Hrow in He.
    unfold submitRepository, call. cbn [user bind].
    destruct (decide (name ∈ directory w)) as [Hin|Hout].
    + run_with_answers. repeat split; eauto.
    + run_with_answers. repeat split; eauto.
      intros _ Hin. contradiction.
  - cbn. repeat split; eauto.
    intros [x Hx]. discriminate Hx.
Qed.

Lemma submitRepository_steps_witness :
  run offline (submitRepository "A/A" ann) world0
  = (Rejected (Error "service unavailable"), world0,
     [Repositories_getByFullName "A/A"])
  /\ run (world_handler no_feed) (submitRepository "C/C" ann) world0
     = (Rejected (repository_not_found "C/C"), world0,
        [Repositories_getByFullName "C/C"])
  /\ run (world_handler no_feed) (submitRepository "A/A" ann) world0
     = (Rejected already_added, world0,
        [Repositories_getByFullName "A/A"; Entries_getByRepoFullName "A/A"])
  /\ run (read_only (world_handler no_feed)) (submitRepository "B/B" ann) world0
     = (Rejected (Error "unavailable"), world0,
        [Repositories_getByFullName "B/B"; Entries_getByRepoFullName "B/B";
         Entries_submitRepository "B/B" "ann"])
  /\ (exists w,
        run (world_handler no_feed) (submitRepository "B/B" ann) world0
        = (Resolved (Some {| entry_repository_name := "B/B";
                             entry_posted_by := "ann";
                             entry_created_at := 2;
                             entry_score := 0 |}), w,
           [Repositories_getByFullName "B/B"; Entries_getByRepoFullName "B/B";
            Entries_submitRepository "B/B" "ann";
            Entries_getByRepoFullName "B/B"]))
  /\ outcome (run (world_handler no_feed) (submitRepository "A/A" ann) world0)
     = Rejected already_added.
Proof.
  pose (u := {| login := "ann" |}).
  split.
  { apply (proj1 (proj2 (submitRepository_steps offline world0 "A/A" u))).
    reflexivity. }
  split.
  { apply (proj1 (proj2 (proj2
             (submitRepository_steps (world_handler no_feed) world0 "C/C" u)))).
    reflexivity. }
  split.
  { eapply (proj1 (proj2 (proj2 (proj2
              (submitRepository_steps (world_handler no_feed) world0 "A/A" u))))).
    - reflexivity.
    - reflexivity. }
  split.
  { eapply (proj1 (proj2 (proj2 (proj2 (proj2
              (submitRepository_steps (read_only (world_handler no_feed))
                 world0 "B/B" u)))))).
    - reflexivity.
    - reflexivity.
    - reflexivity. }
  split.
  { eexists.
    eapply (proj1 (proj2 (proj2 (proj2 (proj2 (proj2
              (submitRepository_steps (world_handler no_feed)
                 world0 "B/B" u))))))).
    - reflexivity.
    - reflexivity.
    - reflexivity.
    - reflexivity. }
  refine (proj2 (proj2 (proj2
            (proj2 (proj2 (proj2 (proj2 (proj2 (proj2
               (submitRepository_steps (world_handler no_feed)
                  world0 "A/A" u))))))
               no_feed world0 ann _))) _ _).
  - eexists. reflexivity.
  - eexists. reflexivity.
  - vm_compute. reflexivity.
Defined.

(** ** [vote] *)

(** C5: an authenticated [vote] turns UP, DOWN, CANCEL into 1, -1, 0, hands
    that value with the caller's login to [voteForEntry], and once that has
    resolved reads the entry again and resolves to what the store returns. *)
Theorem vote_maps_records_rereads {S : Type} (h : Handler S) (s s1 s2 : S)
  (name : string) (type : VoteType) (u : User) (res : Result (option Entry)) :
  h (Entries_voteForEntry name (voteValue type) (login u)) s
  = (Resolved tt, s1) ->
  h (Entries_getByRepoFullName name) s1 = (res, s2) ->
  voteValue UP = 1 /\ voteValue DOWN = -1 /\ voteValue CANCEL = 0
  /\ run h (vote name type {| user := Some u |}) s
     = (res, s2,
        [Entries_voteForEntry name (voteValue type) (login u);
         Entries_getByRepoFullName name]).
Proof.
  intros H1 H2. repeat split.
  unfold vote, call. cbn [user bind]. run_with_answers.
  rewrite H2. destruct res; reflexivity.
Qed.

Lemma vote_maps_records_rereads_witness :
  exists w,
    run (world_handler no_feed) (vote "A/A" DOWN ann) world0
    = (Resolved (Some {| entry_repository_name := "A/A";
                         entry_posted_by := "ann";
                         entry_created_at := 1;
                         entry_score := 0 |}), w,
       [Entries_voteForEntry "A/A" (-1) "ann";
        Entries_getByRepoFullName "A/A"]).
Proof.
  eexists.
  refine (proj2 (proj2 (proj2
            (vote_maps_records_rereads (world_handler no_feed)
               world0 _ _ "A/A" DOWN {| login := "ann" |} _
               eq_refl eq_refl)))).
Defined.

(** ** [submitComment] *)

(** C6: [submitComment] publishes at most once, always on "commentAdded".
    When the comment is created, fetched by the first id the creation
    returned, and published, the mutation resolves to the fetched comment
    and the one event published carries that same comment.  Without a user,
    or when creation or the fetch is rejected, nothing is published; a
    rejected publication is not repeated. *)
Theorem submitComment_publishes_fetched_once {S : Type} (h : Handler S)
  (s : S) (name text : string) (u : User) :
  publications
    (calls (run h (submitComment name text {| user := None |}) s)) = []
  /\ (forall e s1,
        h (Comments_submitComment name (login u) text) s = (Rejected e, s1) ->
        let r := run h (submitComment name text {| user := Some u |}) s in
        outcome r = Rejected e /\ publications (calls r) = [])
  /\ (forall ids s1 e s2,
        h (Comments_submitComment name (login u) text) s
        = (Resolved ids, s1) ->
        h (Comments_getCommentById (first_id ids)) s1 = (Rejected e, s2) ->
        let r := run h (submitComment name text {| user := Some u |}) s in
        outcome r = Rejected e /\ publications (calls r) = [])
  /\ (forall ids s1 comment s2 e s3,
        h (Comments_submitComment name (login u) text) s
        = (Resolved ids, s1) ->
        h (Comments_getCommentById (first_id ids)) s1
        = (Resolved comment, s2) ->
        h (pubsub_publish COMMENT_ADDED_TOPIC {| commentAdded := comment |}) s2
        = (Rejected e, s3) ->
        let r := run h (submitComment name text {| user := Some u |}) s in
        outcome r = Rejected e
        /\ publications (calls r)
           = [(COMMENT_ADDED_TOPIC, {| commentAdded := comment |})])
  /\ (forall ids s1 comment s2 s3,
        h (Comments_submitComment name (login u) text) s
        = (Resolved ids, s1) ->
        h (Comments_getCommentById (first_id ids)) s1
        = (Resolved comment, s2) ->
        h (pubsub_publish COMMENT_ADDED_TOPIC {| commentAdded := comment |}) s2
        = (Resolved tt, s3) ->
        let r := run h (submitComment name text {| user := Some u |}) s in
        r = (Resolved comment, s3,
             [Comments_submitComment name (login u) text;
              Comments_getCommentById (first_id ids);
              pubsub_publish COMMENT_ADDED_TOPIC
                {| commentAdded := comment |}])
        /\ publications (calls r)
           = [("commentAdded", {| commentAdded := comment |})]).
Proof.
  split; [reflexivity|].
  split.
  { intros e s1 H1. cbn zeta. unfold submitComment, call. cbn [user bind].
    run_with_answers. split; reflexivity. }
  split.
  { intros ids s1 e s2 H1 H2. cbn zeta. unfold submitComment, call.
    cbn [user bind]. run_with_answers. split; reflexivity. }
  split.
  { intros ids s1 comment s2 e s3 H1 H2 H3. cbn zeta.
    unfold submitComment, call. cbn [user bind]. run_with_answers.
    split; reflexivity. }
  intros ids s1 comment s2 s3 H1 H2 H3. cbn zeta.
  unfold submitComment, call. cbn [user bind]. run_with_answers.
  split; reflexivity.
Qed.

Lemma submitComment_publishes_fetched_once_witness :
  outcome (run offline (submitComment "A/A" "nice" ann) world0)
  = Rejected (Error "service unavailable")
  /\ publications
       (calls (run (world_handler no_feed)
                 (submitComment "Z/Z" "nice" ann) world0)) = []
  /\ publications
       (calls (run (rejecting is_fetch (world_handler no_feed))
                 (submitComment "A/A" "nice" ann) world0)) = []
  /\ publications
       (calls (run (rejecting is_publish (world_handler no_feed))
                 (submitComment "A/A" "nice" ann) world0))
     = [("commentAdded",
         {| commentAdded :=
              Some {| comment_id := 1; repository_name := "A/A";
                      posted_by := "ann"; content := "nice";
                      created_at := 2 |} |})]
  /\ (exists w,
        run (world_handler no_feed) (submitComment "A/A" "nice" ann) world0
        = (Resolved (Some {| comment_id := 1; repository_name := "A/A";
                             posted_by := "ann"; content := "nice";
                             created_at := 2 |}), w,
           [Comments_submitComment "A/A" "ann" "nice";
            Comments_getCommentById (Some 1);
            pubsub_publish "commentAdded"
              {| commentAdded :=
                   Some {| comment_id := 1; repository_name := "A/A";
                           posted_by := "ann"; content := "nice";
                           created_at := 2 |} |}])).
Proof.
  pose (u := {| login := "ann" |}).
  split.
  { refine (proj1 (proj1 (proj2
              (submitComment_publishes_fetched_once offline world0
                 "A/A" "nice" u)) _ world0 eq_refl)). }
  split.
  { refine (proj2 (proj1 (proj2
              (submitComment_publishes_fetched_once (world_handler no_feed)
                 world0 "Z/Z" "nice" u)) unknown_entry world0 eq_refl)). }
  split.
  { refine (proj2 (proj1 (proj2 (proj2
              (submitComment_publishes_fetched_once
                 (rejecting is_fetch (world_handler no_feed))
                 world0 "A/A" "nice" u))) [1] _ _ _ eq_refl eq_refl)). }
  split.
  { refine (proj2 (proj1 (proj2 (proj2 (proj2
              (submitComment_publishes_fetched_once
                 (rejecting is_publish (world_handler no_feed))
                 world0 "A/A" "nice" u)))) [1] _ _ _ _ _
              eq_refl eq_refl eq_refl)). }
  eexists.
  refine (proj1 (proj2 (proj2 (proj2 (proj2
            (submitComment_publishes_fetched_once (world_handler no_feed)
               world0 "A/A" "nice" u)))) [1] _ _ _ _
            eq_refl eq_refl eq_refl)).
Defined.

(** ** Cache hints of the queries *)

(** C9: every invocation of [feed], [entry] and [currentUser] starts by
    setting a cache hint, sets exactly one, and its maximum age is 60.
    Nothing is remembered between invocations: once the hint is set, [feed]
    and [entry] ask the store and resolve to its answer of that moment, and
    [currentUser] resolves to the user of the request at hand. *)
Theorem queries_hint_sixty_seconds {S : Type} (h : Handler S) (s : S)
  (type : FeedType) (offset limit : JsVal) (name : string)
  (context : Context) :
  hinted (calls (run h (feed type offset limit context) s)) = [60]
  /\ hinted (calls (run h (entry name context) s)) = [60]
  /\ hinted (calls (run h (currentUser context) s)) = [60]
  /\ head (calls (run h (feed type offset limit context) s))
     = Some (cacheControl_setCacheHint 60)
  /\ head (calls (run h (entry name context) s))
     = Some (cacheControl_setCacheHint 60)
  /\ head (calls (run h (currentUser context) s))
     = Some (cacheControl_setCacheHint 60)
  /\ (forall s1,
        h (cacheControl_setCacheHint 60) s = (Resolved tt, s1) ->
        run h (feed type offset limit context) s
        = ((h (Entries_getForFeed type offset (protectedLimit limit)) s1).1,
           (h (Entries_getForFeed type offset (protectedLimit limit)) s1).2,
           [cacheControl_setCacheHint 60;
            Entries_getForFeed type offset (protectedLimit limit)])
        /\ run h (entry name context) s
           = ((h (Entries_getByRepoFullName name) s1).1,
              (h (Entries_getByRepoFullName name) s1).2,
              [cacheControl_setCacheHint 60; Entries_getByRepoFullName name])
        /\ run h (currentUser context) s
           = (Resolved (user context), s1, [cacheControl_setCacheHint 60])).
Proof.
  unfold feed, entry, currentUser, call. cbn [bind].
  repeat match goal with |- _ /\ _ => split end.
  1-6: cbn [run];
    destruct (h (cacheControl_setCacheHint 60) s) as [[[]|e] s1];
    [|reflexivity]; repeat case_match; simplify_eq; reflexivity.
  intros s1 Hs.
  repeat match goal with |- _ /\ _ => split end; run_with_answers.
  - destruct (h (Entries_getForFeed type offset (protectedLimit limit)) s1)
      as [[x|e] s2]; reflexivity.
  - destruct (h (Entries_getByRepoFullName name) s1) as [[x|e] s2];
      reflexivity.
  - reflexivity.
Qed.

Lemma queries_hint_sixty_seconds_witness :
  outcome (run (world_handler no_feed) (entry "A/A" anonymous) world0)
  = Resolved (Some {| entry_repository_name := "A/A";
                      entry_posted_by := "ann";
                      entry_created_at := 1;
                      entry_score := 1 |})
  /\ outcome (run (world_handler no_feed) (currentUser ann) world0)
     = Resolved (Some {| login := "ann" |})
  /\ calls (run (world_handler no_feed)
              (feed TOP JsNull (JsNumber 500) ann) world0)
     = [cacheControl_setCacheHint 60;
        Entries_getForFeed TOP JsNull (JsNumber 20)].
Proof.
  pose proof (proj2 (proj2 (proj2 (proj2 (proj2 (proj2
    (queries_hint_sixty_seconds (world_handler no_feed) world0
       TOP JsNull (JsNumber 500) "A/A" anonymous)))))) _ eq_refl) as Ha.
  pose proof (proj2 (proj2 (proj2 (proj2 (proj2 (proj2
    (queries_hint_sixty_seconds (world_handler no_feed) world0
       TOP JsNull (JsNumber 500) "A/A" ann)))))) _ eq_refl) as Hb.
  split; [|split].
  - exact (f_equal outcome (proj1 (proj2 Ha))).
  - exact (f_equal outcome (proj2 (proj2 Hb))).
  - exact (f_equal calls (proj1 Hb)).
Defined.

(** ** The [commentAdded] subscription *)

Lemma deliver_commentAdded (sub : Subscriber) (c : Comment) :
  sub_topic sub = COMMENT_ADDED_TOPIC ->
  sub_filter sub = commentAdded_filter ->
  deliver COMMENT_ADDED_TOPIC {| commentAdded := Some c |} sub
  = {| sub_topic := sub_topic sub; sub_args := sub_args sub;
       sub_filter := sub_filter sub;
       delivered :=
         if String.eqb (repository_name c) (repoFullName (sub_args sub))
         then delivered sub ++ [{| commentAdded := Some c |}]
         else delivered sub |}.
Proof.
  intros Ht Hf. destruct sub as [t a f d]. cbn in Ht, Hf. subst t f.
  unfold deliver. cbn [sub_topic sub_args sub_filter delivered].
  rewrite String.eqb_refl. unfold commentAdded_filter at 1.
  cbn [commentAdded].
  destruct (String.eqb (repository_name c) (repoFullName a)); reflexivity.
Qed.

(** C4: a published comment-added event joins the sequence of a live
    [commentAdded] subscription exactly when the repository name of its
    comment equals the [repoFullName] the subscription was opened with, and
    otherwise leaves that sequence as it was.  With one subscription on
    "A/A" and one on "B/B", an event for a comment on "A/A" reaches the
    first and the second sees nothing. *)
Theorem commentAdded_reaches_matching_subscribers :
  (forall (subscribers : list Subscriber) (i : nat) (sub : Subscriber)
          (c : Comment),
      subscribers !! i = Some sub ->
      sub_topic sub = COMMENT_ADDED_TOPIC ->
      sub_filter sub = commentAdded_filter ->
      exists sub',
        publish COMMENT_ADDED_TOPIC {| commentAdded := Some c |} subscribers
          !! i = Some sub'
        /\ sub_args sub' = sub_args sub
        /\ (delivered sub'
            = (delivered sub ++ [{| commentAdded := Some c |}])%list
            <-> repository_name c = repoFullName (sub_args sub))
        /\ (repository_name c <> repoFullName (sub_args sub) ->
            delivered sub' = delivered sub))
  /\ (forall c : Comment,
        repository_name c = "A/A" ->
        delivered <$>
          publish COMMENT_ADDED_TOPIC {| commentAdded := Some c |}
            [commentAdded_subscribe {| repoFullName := "A/A" |};
             commentAdded_subscribe {| repoFullName := "B/B" |}]
        = [[{| commentAdded := Some c |}]; []]).
Proof.
  split.
  - intros subscribers i sub c Hi Ht Hf.
    unfold publish. rewrite list_lookup_fmap, Hi. cbn [fmap option_fmap option_map].
    eexists. split; [reflexivity|].
    rewrite (deliver_commentAdded sub c Ht Hf). cbn [sub_args delivered].
    destruct (String.eqb_spec (repository_name c) (repoFullName (sub_args sub)))
      as [Heq|Hne].
    + repeat split; auto. intros Hne. contradiction.
    + split; [reflexivity|]. split; [|auto]. split.
      * intros Habs. apply (f_equal length) in Habs.
        rewrite length_app in Habs. cbn in Habs. lia.
      * intros Heq. contradiction.
  - intros c Hc. cbn. unfold deliver. cbn.
    unfold commentAdded_filter. cbn. rewrite Hc. reflexivity.
Qed.

Lemma commentAdded_reaches_matching_subscribers_witness :
  (exists sub',
     publish COMMENT_ADDED_TOPIC {| commentAdded := Some (comment_on "B/B") |}
       [commentAdded_subscribe {| repoFullName := "A/A" |};
        commentAdded_subscribe {| repoFullName := "B/B" |}] !! 1%nat
     = Some sub'
     /\ delivered sub' = [{| commentAdded := Some (comment_on "B/B") |}])
  /\ delivered <$>
       publish COMMENT_ADDED_TOPIC {| commentAdded := Some (comment_on "A/A") |}
         [commentAdded_subscribe {| repoFullName := "A/A" |};
          commentAdded_subscribe {| repoFullName := "B/B" |}]
     = [[{| commentAdded := Some (comment_on "A/A") |}]; []].
Proof.
  split.
  - destruct (proj1 commentAdded_reaches_matching_subscribers
                [commentAdded_subscribe {| repoFullName := "A/A" |};
                 commentAdded_subscribe {| repoFullName := "B/B" |}]
                1%nat (commentAdded_subscribe {| repoFullName := "B/B" |})
                (comment_on "B/B") eq_refl eq_refl eq_refl)
      as (sub' & Hsub & _ & Hiff & _).
    exists sub'. split; [exact Hsub|].
    exact (proj2 Hiff eq_refl).
  - exact (proj2 commentAdded_reaches_matching_subscribers
             (comment_on "A/A") eq_refl).
Defined.

(** ** Votes and the score of an entry *)

Lemma add_vote_comm (name : string) (j1 j2 : string * string) (z1 z2 y : Z) :
  add_vote name j1 z1 (add_vote name j2 z2 y)
  = add_vote name j2 z2 (add_vote name j1 z1 y).
Proof. unfold add_vote. repeat case_decide; lia. Qed.

(** After an upsert the score is the other voters' total plus the new
    value: whatever the voter had recorded before is gone. *)
Lemma currentScore_castVote (name voter : string) (v : Z)
  (vs : gmap (string * string) Z) :
  currentScore (castVote name voter v vs) name
  = currentScore (delete (name, voter) vs) name + v.
Proof.
  unfold castVote, currentScore. rewrite <- insert_delete_eq.
  rewrite map_fold_insert_L.
  - unfold add_vote at 1. cbn [fst]. rewrite decide_True by reflexivity. lia.
  - intros. apply add_vote_comm.
  - apply lookup_delete_eq.
Qed.

Lemma delete_castVote (name voter : string) (v : Z)
  (vs : gmap (string * string) Z) :
  delete (name, voter) (castVote name voter v vs) = delete (name, voter) vs.
Proof. unfold castVote. apply delete_insert_eq. Qed.

Lemma valid_vote_voteValue (type : VoteType) :
  valid_vote (voteValue type) = true.
Proof. destruct type; reflexivity. Qed.

Section VotesInTheWorld.

Variable feedimpl : FeedType -> JsVal -> JsVal -> World -> list Entry.
Variables (name : string) (u : User).

Let h := world_handler feedimpl.
Let me := {| user := Some u |}.

Lemma vote_in_world (type : VoteType) (w : World) :
  is_Some (entries w !! name) ->
  let w1 := set_votes (castVote name (login u) (voteValue type) (votes w)) w in
  run h (vote name type me) w
  = (Resolved (getEntryByRepoFullName w1 name), w1,
     [Entries_voteForEntry name (voteValue type) (login u);
      Entries_getByRepoFullName name]).
Proof.
  intros [row Hrow] w1.
  assert (H1 : h (Entries_voteForEntry name (voteValue type) (login u)) w
               = (Resolved tt, w1)).
  { subst h. cbn [world_handler]. rewrite valid_vote_voteValue.
    cbn [negb]. rewrite Hrow. reflexivity. }
  unfold vote, call. subst me. cbn [user bind]. run_with_answers.
  reflexivity.
Qed.

Lemma vote_all_snoc (types : list VoteType) (type : VoteType) (w : World) :
  vote_all h name me (types ++ [type]) w
  = final (run h (vote name type me) (vote_all h name me types w)).
Proof. unfold vote_all. rewrite foldl_app. reflexivity. Qed.

(** Voting neither adds nor removes entries, and never touches the vote
    records of other voters or other entries. *)
Lemma vote_all_keeps_the_rest (types : list VoteType) (w : World) :
  is_Some (entries w !! name) ->
  entries (vote_all h name me types w) = entries w
  /\ delete (name, login u) (votes (vote_all h name me types w))
     = delete (name, login u) (votes w).
Proof.
  revert w. induction types as [|type types IH]; intros w Hw.
  - split; reflexivity.
  - change (vote_all h name me (type :: types) w)
      with (vote_all h name me types
              (final (run h (vote name type me) w))).
    rewrite (vote_in_world type w Hw). cbn [final fst snd].
    destruct (IH (set_votes (castVote name (login u) (voteValue type)
                               (votes w)) w) Hw) as [He Hd].
    rewrite He, Hd. split; [reflexivity|].
    cbn [set_votes votes]. apply delete_castVote.
Qed.

Lemma score_after_votes (types : list VoteType) (type : VoteType)
  (w : World) :
  is_Some (entries w !! name) ->
  currentScore (votes (vote_all h name me (types ++ [type]) w)) name
  = currentScore (delete (name, login u) (votes w)) name + voteValue type.
Proof.
  intros Hw.
  destruct (vote_all_keeps_the_rest types w Hw) as [He Hd].
  rewrite vote_all_snoc, vote_in_world by (rewrite He; exact Hw).
  cbn [final fst snd set_votes votes].
  rewrite currentScore_castVote, Hd. reflexivity.
Qed.

End VotesInTheWorld.

(** C7: when one voter votes several times on one entry, the score of the
    entry afterwards is the total of everybody else's votes plus the value
    of that voter's last vote, whatever came before; the entry returned by
    the last mutation shows that score.  After UP then DOWN the score is 2
    below what it was after the UP, and after CANCEL the voter contributes
    nothing. *)
Theorem score_reflects_last_vote_only
  (feedimpl : FeedType -> JsVal -> JsVal -> World -> list Entry)
  (name : string) (u : User) (types : list VoteType) (type : VoteType)
  (w : World) :
  is_Some (entries w !! name) ->
  let h := world_handler feedimpl in
  let me := {| user := Some u |} in
  let others := currentScore (delete (name, login u) (votes w)) name in
  currentScore (votes (vote_all h name me (types ++ [type]) w)) name
  = others + voteValue type
  /\ (exists e,
        outcome (run h (vote name type me) (vote_all h name me types w))
        = Resolved (Some e)
        /\ entry_score e = others + voteValue type)
  /\ currentScore (votes (vote_all h name me (types ++ [UP; DOWN]) w)) name
     = currentScore (votes (vote_all h name me (types ++ [UP]) w)) name - 2
  /\ currentScore (votes (vote_all h name me (types ++ [CANCEL]) w)) name
     = others.
Proof.
  intros Hw h me others. subst h me others.
  destruct (vote_all_keeps_the_rest feedimpl name u types w Hw) as [He Hd].
  split; [apply score_after_votes; exact Hw|].
  split.
  { rewrite vote_in_world by (rewrite He; exact Hw). cbn [outcome fst].
    unfold getEntryByRepoFullName. cbn [set_votes entries votes].
    rewrite He. destruct Hw as [row Hrow]. rewrite Hrow.
    eexists. split; [reflexivity|]. cbn [entry_score].
    rewrite currentScore_castVote, Hd. reflexivity. }
  split.
  { replace (types ++ [UP; DOWN])%list with ((types ++ [UP]) ++ [DOWN])%list
      by (rewrite <- app_assoc; reflexivity).
    rewrite !score_after_votes by exact Hw. cbn [voteValue]. lia. }
  rewrite score_after_votes by exact Hw. cbn [voteValue]. lia.
Qed.

Lemma score_reflects_last_vote_only_witness :
  currentScore
    (votes (vote_all (world_handler no_feed) "A/A" ann [UP; UP; DOWN] world0))
    "A/A" = 0
  /\ currentScore
       (votes (vote_all (world_handler no_feed) "A/A" ann [DOWN; UP] world0))
       "A/A" = 2.
Proof.
  assert (Hw : is_Some (entries world0 !! "A/A")) by (eexists; reflexivity).
  split.
  - exact (proj1 (score_reflects_last_vote_only no_feed "A/A"
                    {| login := "ann" |} [UP; UP] DOWN world0 Hw)).
  - exact (proj1 (score_reflects_last_vote_only no_feed "A/A"
                    {| login := "ann" |} [DOWN] UP world0 Hw)).
Defined.

(** ** Enrichment lookups that fail *)

(** A lookup that succeeds settles the promise with the location and the
    callback runs to its end. *)
Lemma getLocation_found (Float : Type) (Float_toString : Float -> string)
  (r0 : GeocoderEntry Float) (rest : list (GeocoderEntry Float))
  (place : string) :
  getLocation Float_toString (fun _ => (None, Some (r0 :: rest))) place
  = (Some (Resolved
       {| location_city := city r0;
          location_country := country r0;
          location_coords := [latitude r0; longitude r0];
          mapLink := mapLinkBase +:+ Float_toString (latitude r0) +:+ ","
                       +:+ Float_toString (longitude r0) |}),
     Normal).
Proof. reflexivity. Qed.

(** C8: a failed geocoding or weather lookup is meant to end as a rejected
    promise of that one field and nothing more.  The promise is rejected
    with the reported error, but the callback does not stop there: it goes
    on to read [res[0]] (or to parse [body]) although the lookup delivered
    nothing, and an exception leaves the callback. *)
Theorem enrichment_error_escapes_callback (Float : Type)
  (Float_toString : Float -> string)
  (JSON_parse : string -> Result (option (Forecast Float)))
  (e : JsError) (place : string) (coords : list Float) :
  getLocation Float_toString (fun _ => (Some e, None)) place
  = (Some (Rejected e),
     Abrupt (TypeError "Cannot read property '0' of undefined"))
  /\ getWeather JSON_parse (fun _ => (Some e, None)) coords
     = (Some (Rejected e),
        Abrupt (SyntaxError "Unexpected token u in JSON at position 0")).
Proof. split; reflexivity. Qed.

(** * Further properties of the resolvers *)

(** ** [feed] with a supplied limit *)

(** X1: when [limit] is supplied, as an integer or as [null], the store is
    asked for a number of entries between 1 and 20: the requested number
    when that lies in the range, 20 otherwise, and 20 for [null]. *)
Theorem feed_supplied_limit_in_range {S : Type} (h : Handler S) (s s1 : S)
  (type : FeedType) (offset limit : JsVal) (context : Context) :
  limit <> JsUndefined ->
  h (cacheControl_setCacheHint 60) s = (Resolved tt, s1) ->
  exists n,
    1 <= n <= 20
    /\ n = match limit with
           | JsNumber m => if decide (1 <= m <= 20) then m else 20
           | _ => 20
           end
    /\ calls (run h (feed type offset limit context) s)
       = [cacheControl_setCacheHint 60;
          Entries_getForFeed type offset (JsNumber n)].
Proof.
  intros Hl Hh.
  assert (Hp : exists n,
             1 <= n <= 20
             /\ n = match limit with
                    | JsNumber m => if decide (1 <= m <= 20) then m else 20
                    | _ => 20
                    end
             /\ protectedLimit limit = JsNumber n).
  { destruct limit as [| |m]; [congruence| |].
    - exists 20. repeat split; lia.
    - rewrite protectedLimit_number. eexists. split; [|split; reflexivity].
      case_decide; lia. }
  destruct Hp as (n & Hn & Hdef & Hp). exists n. split; [exact Hn|].
  split; [exact Hdef|].
  unfold feed, call. cbn [bind]. run_with_answers. rewrite Hp.
  destruct (h (Entries_getForFeed type offset (JsNumber n)) s1)
    as [[x|e] s2]; reflexivity.
Qed.

Lemma feed_supplied_limit_in_range_witness :
  calls (run (world_handler no_feed)
           (feed NEW JsUndefined (JsNumber 0) anonymous) world0)
  = [cacheControl_setCacheHint 60;
     Entries_getForFeed NEW JsUndefined (JsNumber 20)]
  /\ calls (run (world_handler no_feed)
              (feed NEW JsUndefined (JsNumber 7) anonymous) world0)
     = [cacheControl_setCacheHint 60;
        Entries_getForFeed NEW JsUndefined (JsNumber 7)].
Proof.
  split.
  - destruct (feed_supplied_limit_in_range (world_handler no_feed) world0 _
                NEW JsUndefined (JsNumber 0) anonymous
                ltac:(discriminate) eq_refl) as (n & _ & -> & Hc).
    exact Hc.
  - destruct (feed_supplied_limit_in_range (world_handler no_feed) world0 _
                NEW JsUndefined (JsNumber 7) anonymous
                ltac:(discriminate) eq_refl) as (n & _ & -> & Hc).
    exact Hc.
Defined.

(** ** What the resolvers reach *)

(** Inclusion between two call sequences that are written out. *)
Ltac calls_included := intros ?; rewrite !elem_of_cons; tauto.

(** The call sequences a resolver can produce, by how far it gets. *)
Section Shapes.

Context {S : Type} (h : Handler S) (s : S).

Lemma feed_calls (type : FeedType) (offset limit : JsVal) (context : Context) :
  let t := calls (run h (feed type offset limit context) s) in
  t = [cacheControl_setCacheHint 60]
  \/ t = [cacheControl_setCacheHint 60;
          Entries_getForFeed type offset (protectedLimit limit)].
Proof.
  unfold feed, call. cbn [bind run].
  destruct (h (cacheControl_setCacheHint 60) s) as [[[]|e] s1];
    [|left; reflexivity].
  destruct (h (Entries_getForFeed type offset (protectedLimit limit)) s1)
    as [[x|e] s2]; right; reflexivity.
Qed.

Lemma entry_calls (name : string) (context : Context) :
  let t := calls (run h (entry name context) s) in
  t = [cacheControl_setCacheHint 60]
  \/ t = [cacheControl_setCacheHint 60; Entries_getByRepoFullName name].
Proof.
  unfold entry, call. cbn [bind run].
  destruct (h (cacheControl_setCacheHint 60) s) as [[[]|e] s1];
    [|left; reflexivity].
  destruct (h (Entries_getByRepoFullName name) s1) as [[x|e] s2];
    right; reflexivity.
Qed.

Lemma currentUser_calls (context : Context) :
  calls (run h (currentUser context) s) = [cacheControl_setCacheHint 60].
Proof.
  unfold currentUser, call. cbn [bind run].
  destruct (h (cacheControl_setCacheHint 60) s) as [[[]|e] s1]; reflexivity.
Qed.

Lemma vote_calls (name : string) (type : VoteType) (u : User) :
  let t := calls (run h (vote name type {| user := Some u |}) s) in
  t = [Entries_voteForEntry name (voteValue type) (login u)]
  \/ t = [Entries_voteForEntry name (voteValue type) (login u);
          Entries_getByRepoFullName name].
Proof.
  unfold vote, call. cbn [user bind run].
  destruct (h (Entries_voteForEntry name (voteValue type) (login u)) s)
    as [[[]|e] s1]; [|left; reflexivity].
  destruct (h (Entries_getByRepoFullName name) s1) as [[x|e] s2];
    right; reflexivity.
Qed.

(** How far [submitRepository] gets, with what the two checks answered
    whenever the write is reached. *)
Lemma submitRepository_calls (name : string) (u : User) :
  let t := calls (run h (submitRepository name {| user := Some u |}) s) in
  t = [Repositories_getByFullName name]
  \/ t = [Repositories_getByFullName name; Entries_getByRepoFullName name]
  \/ ((t = [Repositories_getByFullName name; Entries_getByRepoFullName name;
            Entries_submitRepository name (login u)]
       \/ t = [Repositories_getByFullName name; Entries_getByRepoFullName name;
               Entries_submitRepository name (login u);
               Entries_getByRepoFullName name])
      /\ exists repo s1 s2,
           h (Repositories_getByFullName name) s = (Resolved (Some repo), s1)
           /\ h (Entries_getByRepoFullName name) s1 = (Resolved None, s2)).
Proof.
  unfold submitRepository, call. cbn [user bind run].
  destruct (h (Repositories_getByFullName name) s) as [[[repo|]|e] s1]
    eqn:Hd; [|left; reflexivity|left; reflexivity].
  cbn [bind run].
  destruct (h (Entries_getByRepoFullName name) s1) as [[[x|]|e] s2] eqn:He;
    [right; left; reflexivity| |right; left; reflexivity].
  cbn [bind run]. right. right.
  split; [|exists repo, s1, s2; split; [reflexivity|exact He]].
  destruct (h (Entries_submitRepository name (login u)) s2) as [[[]|e] s3];
    [|left; reflexivity].
  cbn [bind run].
  destruct (h (Entries_getByRepoFullName name) s3) as [[y|e] s4];
    right; reflexivity.
Qed.

Lemma submitComment_calls (name text : string) (u : User) :
  let t := calls (run h (submitComment name text {| user := Some u |}) s) in
  t = [Comments_submitComment name (login u) text]
  \/ exists ids,
       t = [Comments_submitComment name (login u) text;
            Comments_getCommentById (first_id ids)]
       \/ exists comment,
            t = [Comments_submitComment name (login u) text;
                 Comments_getCommentById (first_id ids);
                 pubsub_publish COMMENT_ADDED_TOPIC
                   {| commentAdded := comment |}].
Proof.
  unfold submitComment, call. cbn [user bind run].
  destruct (h (Comments_submitComment name (login u) text) s)
    as [[ids|e] s1]; [|left; reflexivity].
  cbn [bind run]. right. exists ids.
  destruct (h (Comments_getCommentById (first_id ids)) s1)
    as [[comment|e] s2]; [|left; reflexivity].
  cbn [bind run]. right. exists comment.
  destruct (h (pubsub_publish COMMENT_ADDED_TOPIC
                 {| commentAdded := comment |}) s2) as [[[]|e] s3];
    reflexivity.
Qed.

End Shapes.

(** X2: the three queries only read.  Whatever the collaborators answer,
    no query issues a write to the store or publishes an event, and every
    call it makes is its cache hint or its one lookup. *)
Theorem queries_only_read {S : Type} (h : Handler S) (s : S)
  (type : FeedType) (offset limit : JsVal) (name : string)
  (context : Context) :
  Forall (fun c => is_write c = false /\ is_publish c = false)
    (calls (run h (feed type offset limit context) s)
     ++ calls (run h (entry name context) s)
     ++ calls (run h (currentUser context) s))
  /\ calls (run h (feed type offset limit context) s)
     ⊆ [cacheControl_setCacheHint 60;
        Entries_getForFeed type offset (protectedLimit limit)]
  /\ calls (run h (entry name context) s)
     ⊆ [cacheControl_setCacheHint 60; Entries_getByRepoFullName name]
  /\ calls (run h (currentUser context) s) ⊆ [cacheControl_setCacheHint 60].
Proof.
  rewrite currentUser_calls.
  destruct (feed_calls h s type offset limit context) as [-> | ->];
    destruct (entry_calls h s name context) as [-> | ->];
    (split; [repeat constructor|]);
    (split; [calls_included|]); (split; calls_included).
Qed.

(** X3: an authenticated mutation stays with its own repository and its
    own collaborators.  [vote] only records the vote and reads the entry;
    [submitRepository] only looks the repository up, reads the entry and
    creates it under the caller's login; [submitComment] only creates and
    fetches a comment and publishes on "commentAdded".  None of them sets a
    cache hint, and only [submitComment] publishes. *)
Theorem mutations_stay_in_their_lane {S : Type} (h : Handler S) (s : S)
  (name text : string) (type : VoteType) (u : User) :
  calls (run h (vote name type {| user := Some u |}) s)
  ⊆ [Entries_voteForEntry name (voteValue type) (login u);
     Entries_getByRepoFullName name]
  /\ calls (run h (submitRepository name {| user := Some u |}) s)
     ⊆ [Repositories_getByFullName name; Entries_getByRepoFullName name;
        Entries_submitRepository name (login u)]
  /\ Forall (submitComment_call name (login u) text)
       (calls (run h (submitComment name text {| user := Some u |}) s))
  /\ hinted (calls (run h (vote name type {| user := Some u |}) s)) = []
  /\ hinted (calls (run h (submitRepository name {| user := Some u |}) s))
     = []
  /\ hinted (calls (run h (submitComment name text {| user := Some u |}) s))
     = []
  /\ publications (calls (run h (vote name type {| user := Some u |}) s))
     = []
  /\ publications
       (calls (run h (submitRepository name {| user := Some u |}) s)) = [].
Proof.
  destruct (vote_calls h s name type u) as [-> | ->];
    destruct (submitRepository_calls h s name u)
      as [-> | [-> | [[-> | ->] _]]];
    destruct (submitComment_calls h s name text u)
      as [-> | (ids & [-> | (comment & ->)])];
    (split; [calls_included|]); (split; [calls_included|]);
    (split; [repeat constructor; cbn; auto|]);
    repeat split; reflexivity.
Qed.

(** X4: a mutation writes to the store at most once, whatever the
    collaborators answer, and [submitRepository] reaches its write only
    after the directory has confirmed the repository and the store has
    reported that no entry exists. *)
Theorem mutations_write_at_most_once {S : Type} (h : Handler S) (s : S)
  (name text : string) (type : VoteType) (u : User) :
  (length (List.filter is_write
             (calls (run h (vote name type {| user := Some u |}) s)))
   <= 1)%nat
  /\ (length (List.filter is_write
                (calls (run h (submitRepository name {| user := Some u |}) s)))
      <= 1)%nat
  /\ (length (List.filter is_write
                (calls (run h (submitComment name text {| user := Some u |}) s)))
      <= 1)%nat
  /\ (forall c,
        c ∈ calls (run h (submitRepository name {| user := Some u |}) s) ->
        is_write c = true ->
        c = Entries_submitRepository name (login u)
        /\ exists repo s1 s2,
             h (Repositories_getByFullName name) s = (Resolved (Some repo), s1)
             /\ h (Entries_getByRepoFullName name) s1 = (Resolved None, s2)).
Proof.
  split.
  { destruct (vote_calls h s name type u) as [-> | ->]; cbn; lia. }
  split.
  { destruct (submitRepository_calls h s name u)
      as [-> | [-> | [[-> | ->] _]]]; cbn; lia. }
  split.
  { destruct (submitComment_calls h s name text u)
      as [-> | (ids & [-> | (comment & ->)])]; cbn; lia. }
  intros c Hc Hw.
  destruct (submitRepository_calls h s name u)
    as [Ht | [Ht | [[Ht | Ht] Hex]]]; rewrite Ht in Hc;
    repeat match goal with
      | H : _ ∈ _ :: _ |- _ => apply elem_of_cons in H as [-> | H]
      | H : _ ∈ [] |- _ => apply elem_of_nil in H; contradiction
      end;
    try discriminate Hw; split; auto.
Qed.

Lemma mutations_write_at_most_once_witness :
  exists repo s1 s2,
    world_handler no_feed (Repositories_getByFullName "B/B") world0
    = (Resolved (Some repo), s1)
    /\ world_handler no_feed (Entries_getByRepoFullName "B/B") s1
       = (Resolved None, s2).
Proof.
  refine (proj2 (proj2 (proj2 (proj2
            (mutations_write_at_most_once (world_handler no_feed) world0
               "B/B" "nice" UP {| login := "ann" |})))
            (Entries_submitRepository "B/B" "ann") _ eq_refl)).
  apply (list_elem_of_lookup_2 _ 2%nat). reflexivity.
Defined.

(** ** Failing and degenerate paths of the mutations *)

(** X5: when the store rejects the vote (an unknown entry, say), [vote]
    fails with the store's error, ends in the state the store left, and
    does not read the entry. *)
Theorem vote_rejected_stops {S : Type} (h : Handler S) (s s1 : S)
  (name : string) (type : VoteType) (u : User) (e : JsError) :
  h (Entries_voteForEntry name (voteValue type) (login u)) s
  = (Rejected e, s1) ->
  run h (vote name type {| user := Some u |}) s
  = (Rejected e, s1,
     [Entries_voteForEntry name (voteValue type) (login u)]).
Proof.
  intros H1. unfold vote, call. cbn [user bind]. run_with_answers.
  reflexivity.
Qed.

Lemma vote_rejected_stops_witness :
  run (world_handler no_feed) (vote "Z/Z" UP ann) world0
  = (Rejected unknown_entry, world0, [Entries_voteForEntry "Z/Z" 1 "ann"]).
Proof.
  exact (vote_rejected_stops (world_handler no_feed) world0 world0
           "Z/Z" UP {| login := "ann" |} unknown_entry eq_refl).
Defined.

(** X6: [submitComment] does not check what [getCommentById] found.  When
    the fetch resolves without a comment (as it must when creation reported
    no id and the fetch is made for [undefined]), the mutation still
    publishes, with an empty [commentAdded], and resolves to no comment;
    the subscription filter throws a TypeError on that event, whatever the
    subscriber asked for. *)
Theorem submitComment_missing_comment_still_published {S : Type}
  (h : Handler S) (s s1 s2 s3 : S) (name text : string) (u : User)
  (ids : list Z) :
  h (Comments_submitComment name (login u) text) s = (Resolved ids, s1) ->
  h (Comments_getCommentById (first_id ids)) s1 = (Resolved None, s2) ->
  h (pubsub_publish COMMENT_ADDED_TOPIC {| commentAdded := None |}) s2
  = (Resolved tt, s3) ->
  run h (submitComment name text {| user := Some u |}) s
  = (Resolved None, s3,
     [Comments_submitComment name (login u) text;
      Comments_getCommentById (first_id ids);
      pubsub_publish COMMENT_ADDED_TOPIC {| commentAdded := None |}])
  /\ (ids = [] -> first_id ids = None)
  /\ (forall args,
        exists m,
          commentAdded_filter {| commentAdded := None |} args
          = Rejected (TypeError m)).
Proof.
  intros H1 H2 H3. split; [|split].
  - unfold submitComment, call. cbn [user bind]. run_with_answers.
    reflexivity.
  - intros ->. reflexivity.
  - intros args. eexists. reflexivity.
Qed.

Lemma submitComment_missing_comment_still_published_witness :
  outcome (run (no_ids (world_handler no_feed))
             (submitComment "A/A" "nice" ann) world0) = Resolved None
  /\ publications
       (calls (run (no_ids (world_handler no_feed))
                 (submitComment "A/A" "nice" ann) world0))
     = [("commentAdded", {| commentAdded := None |})].
Proof.
  pose proof (proj1 (submitComment_missing_comment_still_published
                       (no_ids (world_handler no_feed)) world0 _ _ _
                       "A/A" "nice" {| login := "ann" |} []
                       eq_refl eq_refl eq_refl)) as Hr.
  split.
  - exact (f_equal outcome Hr).
  - exact (f_equal (fun r => publications (calls r)) Hr).
Defined.

(** X7: who receives the event of a successful [submitComment] is decided
    by the repository name of the comment the store returned, not by the
    [repoFullName] the mutation was called with: the filter accepts the
    published event for a subscriber exactly when that subscriber's
    [repoFullName] is the fetched comment's [repository_name]. *)
Theorem published_comment_filtered_by_its_own_repository {S : Type}
  (h : Handler S) (s s1 s2 s3 : S) (name text : string) (u : User)
  (ids : list Z) (c : Comment) (args : SubscriptionArgs) :
  h (Comments_submitComment name (login u) text) s = (Resolved ids, s1) ->
  h (Comments_getCommentById (first_id ids)) s1 = (Resolved (Some c), s2) ->
  h (pubsub_publish COMMENT_ADDED_TOPIC {| commentAdded := Some c |}) s2
  = (Resolved tt, s3) ->
  exists p,
    publications
      (calls (run h (submitComment name text {| user := Some u |}) s))
    = [(COMMENT_ADDED_TOPIC, p)]
    /\ (commentAdded_filter p args = Resolved true
        <-> repoFullName args = repository_name c)
    /\ (commentAdded_filter p args = Resolved false
        <-> repoFullName args <> repository_name c).
Proof.
  intros H1 H2 H3. exists {| commentAdded := Some c |}.
  split.
  { unfold submitComment, call. cbn [user bind]. run_with_answers.
    reflexivity. }
  unfold commentAdded_filter. cbn [commentAdded].
  destruct (String.eqb_spec (repository_name c) (repoFullName args))
    as [Heq|Hne]; split; split; intros Hx;
    congruence.
Qed.

Lemma published_comment_filtered_by_its_own_repository_witness :
  exists p,
    publications
      (calls (run (crossed_wires (comment_on "B/B") (world_handler no_feed))
                (submitComment "A/A" "nice" ann) world0))
    = [(COMMENT_ADDED_TOPIC, p)]
    /\ commentAdded_filter p {| repoFullName := "A/A" |} = Resolved false
    /\ commentAdded_filter p {| repoFullName := "B/B" |} = Resolved true.
Proof.
  destruct (published_comment_filtered_by_its_own_repository
              (crossed_wires (comment_on "B/B") (world_handler no_feed))
              world0 _ _ _ "A/A" "nice" {| login := "ann" |} [1]
              (comment_on "B/B") {| repoFullName := "A/A" |}
              eq_refl eq_refl eq_refl) as (p & Hp & _ & Hf).
  destruct (published_comment_filtered_by_its_own_repository
              (crossed_wires (comment_on "B/B") (world_handler no_feed))
              world0 _ _ _ "A/A" "nice" {| login := "ann" |} [1]
              (comment_on "B/B") {| repoFullName := "B/B" |}
              eq_refl eq_refl eq_refl) as (q & Hq & Ht & _).
  exists p. split; [exact Hp|].
  assert (Hpq : p = q) by congruence. subst q.
  split.
  - apply (proj2 Hf). discriminate.
  - apply (proj2 Ht). reflexivity.
Defined.

(** X8: the three vote types are recorded as three different values, each
    of them -1, 0 or 1, and UP and DOWN are opposite. *)
Theorem voteValue_distinct_and_bounded (a b : VoteType) :
  (voteValue a = voteValue b -> a = b)
  /\ -1 <= voteValue a <= 1
  /\ voteValue UP + voteValue DOWN = voteValue CANCEL.
Proof.
  split; [|split].
  - destruct a, b; cbn; intros Hv; try reflexivity; discriminate Hv.
  - destruct a; cbn; lia.
  - reflexivity.
Qed.

Lemma voteValue_distinct_and_bounded_witness : DOWN = DOWN.
Proof.
  exact (proj1 (voteValue_distinct_and_bounded DOWN DOWN) eq_refl).
Defined.

(** ** How the enrichment promises settle *)

(** Brings what is known about the lookup's answer together. *)
Ltac use_answers :=
  repeat match goal with
    | H : ex _ |- _ => destruct H
    | H : _ /\ _ |- _ => destruct H
    | H : _ \/ _ |- _ => destruct H
    end;
  simplify_eq;
  repeat match goal with
    | H1 : ?x = _, H2 : ?x = _ |- _ => rewrite H1 in H2
    end;
  simplify_eq; cbn [currently] in *; simplify_eq.

Ltac settle :=
  intros; use_answers;
  first
    [ reflexivity
    | congruence
    | split; [reflexivity|]; intros ?; use_answers; congruence
    | exfalso; match goal with H : ~ _ |- _ => apply H end; eauto 10
    | eauto 10 ].

(** X9: the promise of [getLocation] is rejected exactly when the geocoder
    reports an error, and then with that error, results or not; it is
    fulfilled exactly when there is no error and at least one result, and
    then from the first result alone; with no error and no result it stays
    pending for ever.  The callback ends without an exception exactly when
    there is at least one result. *)
Theorem getLocation_settlement (Float : Type)
  (Float_toString : Float -> string)
  (geocode : string -> option JsError * option (list (GeocoderEntry Float)))
  (place : string) :
  (forall e,
      (getLocation Float_toString geocode place).1 = Some (Rejected e)
      <-> (geocode place).1 = Some e)
  /\ (forall loc,
        (getLocation Float_toString geocode place).1 = Some (Resolved loc)
        <-> (geocode place).1 = None
            /\ exists r0 rest,
                 (geocode place).2 = Some (r0 :: rest)
                 /\ loc = {| location_city := city r0;
                             location_country := country r0;
                             location_coords := [latitude r0; longitude r0];
                             mapLink :=
                               mapLinkBase +:+ Float_toString (latitude r0)
                                 +:+ "," +:+ Float_toString (longitude r0) |})
  /\ ((getLocation Float_toString geocode place).1 = None
      <-> (geocode place).1 = None
          /\ ((geocode place).2 = None \/ (geocode place).2 = Some []))
  /\ ((getLocation Float_toString geocode place).2 = Normal
      <-> exists r0 rest, (geocode place).2 = Some (r0 :: rest)).
Proof.
  unfold getLocation, getLocation_callback.
  destruct (geocode place) as [[e0|] [[|r0 rest]|]];
    cbn [fst snd reject resolve];
    repeat match goal with |- _ /\ _ => split end;
    intros; split; settle.
Qed.

Lemma getLocation_settlement_witness :
  (getLocation (fun _ : Z => "0")
     (fun _ => (Some (Error "quota"),
                Some [{| city := "Oslo"; country := "Norway";
                         latitude := 59; longitude := 10 |}]))
     "Oslo").1
  = Some (Rejected (Error "quota")).
Proof.
  apply (proj2 (proj1 (getLocation_settlement Z (fun _ => "0")
                         (fun _ => (Some (Error "quota"),
                                    Some [{| city := "Oslo";
                                             country := "Norway";
                                             latitude := 59;
                                             longitude := 10 |}]))
                         "Oslo") (Error "quota"))).
  reflexivity.
Defined.

(** X10: the promise of [getWeather] is rejected exactly when [request]
    reports an error; it is fulfilled exactly when there is no error and the
    body parses to a forecast that has current conditions, and then with
    their summary and temperature and with the coordinates it was called
    with; in every other case without an error it stays pending.  The
    callback ends without an exception exactly when the body parses to a
    forecast with current conditions. *)
Theorem getWeather_settlement (Float : Type)
  (JSON_parse : string -> Result (option (Forecast Float)))
  (request : list Float -> option JsError * option string)
  (coords : list Float) :
  let parsed :=
    exists b data c,
      (request coords).2 = Some b
      /\ JSON_parse b = Resolved (Some data)
      /\ currently data = Some c in
  (forall e,
      (getWeather JSON_parse request coords).1 = Some (Rejected e)
      <-> (request coords).1 = Some e)
  /\ (forall w,
        (getWeather JSON_parse request coords).1 = Some (Resolved w)
        <-> (request coords).1 = None
            /\ exists b data c,
                 (request coords).2 = Some b
                 /\ JSON_parse b = Resolved (Some data)
                 /\ currently data = Some c
                 /\ w = {| weather_summary := summary c;
                           weather_temperature := temperature c;
                           weather_coords := coords |})
  /\ ((getWeather JSON_parse request coords).1 = None
      <-> (request coords).1 = None /\ ~ parsed)
  /\ ((getWeather JSON_parse request coords).2 = Normal <-> parsed).
Proof.
  cbn zeta. unfold getWeather, getWeather_callback.
  destruct (request coords) as [[e0|] [b|]]; cbn [fst snd];
    [destruct (JSON_parse b) as [[[[c|]]|]|e1] eqn:Hp
    | |destruct (JSON_parse b) as [[[[c|]]|]|e1] eqn:Hp| ];
    cbn [currently reject resolve fst snd];
    repeat match goal with |- _ /\ _ => split end;
    intros; split; settle.
Qed.

Lemma getWeather_settlement_witness :
  (getWeather (fun _ => Rejected (SyntaxError "Unexpected token <"))
     (fun _ : list Z => (None, Some "<html>")) [59; 10]).1 = None.
Proof.
  apply (proj2 (proj1 (proj2 (proj2
           (getWeather_settlement Z
              (fun _ => Rejected (SyntaxError "Unexpected token <"))
              (fun _ => (None, Some "<html>")) [59; 10]))))).
  split; [reflexivity|].
  intros (b & data & c & _ & Hp & _). discriminate Hp.
Defined.


(** ** From a place to its weather *)

(** X12: for a place the geocoder finds, the location's map link and the
    Dark Sky request built by [Location.weather] carry the same latitude
    and longitude, those of the first result; when that request answers
    with a body that parses to current conditions, the weather resolves
    with their summary and temperature and with the location's own
    coordinates. *)
Theorem weather_of_geocoded_location (Float : Type)
  (Float_toString : Float -> string)
  (JSON_parse : string -> Result (option (Forecast Float)))
  (darkSkySecret : option string)
  (http : string -> option JsError * option string)
  (geocode : string -> option JsError * option (list (GeocoderEntry Float)))
  (place : string) (r0 : GeocoderEntry Float)
  (rest : list (GeocoderEntry Float)) (b : string) (data : Forecast Float)
  (c : Currently Float) :
  geocode place = (None, Some (r0 :: rest)) ->
  http (baseUrl +:+ in_template id darkSkySecret +:+ "/"
          +:+ Float_toString (latitude r0) +:+ ","
          +:+ Float_toString (longitude r0) +:+ urlParams)
  = (None, Some b) ->
  JSON_parse b = Resolved (Some data) ->
  currently data = Some c ->
  exists loc,
    getLocation Float_toString geocode place = (Some (Resolved loc), Normal)
    /\ mapLink Float loc
       = mapLinkBase +:+ Float_toString (latitude r0) +:+ ","
           +:+ Float_toString (longitude r0)
    /\ weather_url Float_toString darkSkySecret (location_coords Float loc)
       = baseUrl +:+ in_template id darkSkySecret +:+ "/"
           +:+ Float_toString (latitude r0) +:+ ","
           +:+ Float_toString (longitude r0) +:+ urlParams
    /\ Location_weather Float_toString JSON_parse darkSkySecret http loc
       = (Some (Resolved {| weather_summary := summary c;
                            weather_temperature := temperature c;
                            weather_coords :=
                              [latitude r0; longitude r0] |}),
          Normal).
Proof.
  intros Hg Hh Hp Hc. eexists. split.
  { unfold getLocation, getLocation_callback. rewrite Hg. reflexivity. }
  split; [reflexivity|]. split; [reflexivity|].
  unfold Location_weather, getWeather, getWeather_callback.
  cbn [location_coords]. unfold weather_url.
  cbn [lookup list_lookup in_template]. rewrite Hh. cbn [fst snd].
  rewrite Hp, Hc. reflexivity.
Qed.

Lemma weather_of_geocoded_location_witness :
  exists loc,
    getLocation show_degrees (fun _ => (None, Some [oslo])) "Oslo"
    = (Some (Resolved loc), Normal)
    /\ mapLink Z loc = "https://www.google.com/maps/?q=59.9,10.7"
    /\ weather_url show_degrees (Some "key") (location_coords Z loc)
       = "https://api.darksky.net/forecast/key/59.9,10.7?units=us&exclude=minutely,hourly,daily,flags"
    /\ Location_weather show_degrees (fun _ => Resolved (Some clear_sky))
         (Some "key") (fun _ => (None, Some "{}")) loc
       = (Some (Resolved {| weather_summary := "Clear";
                            weather_temperature := 41;
                            weather_coords := [59; 10] |}),
          Normal).
Proof.
  exact (weather_of_geocoded_location Z show_degrees
           (fun _ => Resolved (Some clear_sky)) (Some "key")
           (fun _ => (None, Some "{}")) (fun _ => (None, Some [oslo]))
           "Oslo" oslo [] "{}" clear_sky
           {| summary := "Clear"; temperature := 41 |}
           eq_refl eq_refl eq_refl eq_refl).
Defined.
